(** * Foody-Fresh: the reservation pipeline

  A shallow embedding of the reservation pipeline of the Foody-Fresh
  restaurant site: the Express error middleware ([BACKEND/error/error.js]),
  the [sendReservation] controller and the Mongoose [reservationSchema]
  it writes through, the [handleReservation] submit handler of the form
  component and the countdown effect of the success page.

  JavaScript values are modelled as the code uses them: a request body is
  a finite map from property names to strings (a missing key reads as
  [undefined]), an error object is a record of the properties the code
  touches, a JSON response body is a tree of key/value pairs, and each
  handler is a function from the state it can observe to the state it
  leaves behind. *)

From stdpp Require Import base option list strings gmap.
From Stdlib Require Import Ascii ZArith Lia.

Set Warnings "-register-all".

Local Open Scope string_scope.
Local Open Scope Z_scope.

(** ** JavaScript values *)

Module Js.

(** A JSON value, as [res.json] serialises it and as axios parses it. An
    object keeps its keys in the order the literal lists them. *)
Inductive json : Type :=
| JNull
| JBool (b : bool)
| JNum (n : Z)
| JStr (s : string)
| JObj (fields : list (string * json)).

(** [o.k]: the first binding of [k], [None] standing for [undefined]. *)
Fixpoint get (k : string) (fields : list (string * json)) : option json :=
  match fields with
  | [] => None
  | (k', v) :: rest => if String.eqb k k' then Some v else get k rest
  end.

(** [v?.k] on a value that may be [undefined] or not an object. *)
Definition prop (k : string) (v : option json) : option json :=
  match v with
  | Some (JObj fields) => get k fields
  | _ => None
  end.

(** Truthiness of a string: only the empty string is falsy. *)
Definition truthy_string (s : string) : bool :=
  negb (String.eqb s "").

(** Truthiness of a value that may be [undefined]. *)
Definition truthy (v : option json) : bool :=
  match v with
  | None => false
  | Some JNull => false
  | Some (JBool b) => b
  | Some (JNum n) => negb (n =? 0)
  | Some (JStr s) => truthy_string s
  | Some (JObj _) => true
  end.

(** [!x] for a variable holding a string or [undefined]. *)
Definition not_ (x : option string) : bool :=
  match x with
  | None => true
  | Some s => negb (truthy_string s)
  end.


End Js.

(** ** BACKEND/error/error.js *)

Module Error.
Import Js.

(** An error object: the two properties the middleware reads and writes,
    and the two every [Error] carries besides. *)
Record JsError : Type := mkError {
  message : string;
  StatusCode : option Z;
  name : string;
  stack : string
}.

(** What [res.status(c).json(b)] sends. *)
Record Response : Type := mkResponse {
  status : Z;
  body : json
}.

Section Engine.

(** The trace the engine records when an [Error] is constructed. *)
Variable captureStackTrace : string -> string.

(** [new ErrorHandler(message, StatusCode)]: [super(message)], then the
    assignment of [StatusCode]. A second argument left out is [undefined]. *)
Definition ErrorHandler (message : string) (StatusCode : option Z) : JsError :=
  {| message := message;
     StatusCode := StatusCode;
     name := "Error";
     stack := captureStackTrace message |}.

End Engine.

(** [errorMiddleware(err, req, res, next)]. The two assignments default the
    properties of [err] with [||], for which the empty string, [undefined]
    and [0] are falsy; [req] and [next] are not used. The result is what is
    sent on [res]. *)
Definition errorMiddleware (err : JsError) : Response :=
  let message' :=
    if truthy_string (message err) then message err
    else "Internal Serve Error!" in
  let StatusCode' :=
    match StatusCode err with
    | Some c => if c =? 0 then 500 else c
    | None => 500
    end in
  {| status := StatusCode';
     body := JObj [("success", JBool false); ("message", JStr message')] |}.

End Error.

(** ** models/reservationSchema.js and controller/reservation.js *)

Module Reservation.
Import Js Error.

(** The six variables [sendReservation] destructures from [req.body], and
    the object literal [{ firstName, lastName, email, phone, date, time }]
    it hands to the model: each holds a string or [undefined]. *)
Record Fields : Type := mkFields {
  firstName : option string;
  lastName : option string;
  email : option string;
  phone : option string;
  date : option string;
  time : option string
}.

(** [const { firstName, lastName, email, phone, date, time } = req.body] *)
Definition destructure (body : gmap string string) : Fields :=
  {| firstName := body !! "firstName";
     lastName := body !! "lastName";
     email := body !! "email";
     phone := body !! "phone";
     date := body !! "date";
     time := body !! "time" |}.

(** The options a path of a Mongoose schema is declared with. *)
Record SchemaType : Type := mkSchemaType {
  required : bool;
  minLength : option nat;
  maxLength : option nat;
  validate : option ((string -> bool) * string)
}.

(** The validator a value failed. *)
Inductive ValidatorKind : Type :=
| KRequired
| KMinLength (n : nat)
| KMaxLength (n : nat)
| KUserDefined (msg : string).

Record ValidatorError : Type := mkValidatorError {
  path : string;
  kind : ValidatorKind;
  value : option string
}.

(** The [minLength] validator of a path, on a value that is there. *)
Definition tooShort (t : SchemaType) (s : string) : option ValidatorKind :=
  match minLength t with
  | Some n => if (String.length s <? n)%nat then Some (KMinLength n) else None
  | None => None
  end.

(** The [maxLength] validator of a path. *)
Definition tooLong (t : SchemaType) (s : string) : option ValidatorKind :=
  match maxLength t with
  | Some n => if (n <? String.length s)%nat then Some (KMaxLength n) else None
  | None => None
  end.

(** The [validate: [f, msg]] validator of a path. *)
Definition userDefined (t : SchemaType) (s : string) : option ValidatorKind :=
  match validate t with
  | Some (f, msg) => if f s then None else Some (KUserDefined msg)
  | None => None
  end.

(** The first validator of a path that rejects the value. [required]
    rejects [undefined] and the empty string; the others run on a value
    that is there. *)
Definition checkPath (t : SchemaType) (v : option string) : option ValidatorKind :=
  match v with
  | None => if required t then Some KRequired else None
  | Some s =>
    if required t && negb (truthy_string s) then Some KRequired
    else
      match tooShort t s with
      | Some k => Some k
      | None =>
        match tooLong t s with
        | Some k => Some k
        | None => userDefined t s
        end
      end
  end.

(** A failure that reaches the driver: the storage is unreachable or
    refuses the write. The driver's errors carry no [StatusCode]. *)
Record DriverError : Type := mkDriverError {
  driverMessage : string;
  driverName : string;
  driverStack : string
}.

Definition ofDriver (d : DriverError) : JsError :=
  {| message := driverMessage d;
     StatusCode := None;
     name := driverName d;
     stack := driverStack d |}.

(** The collection behind the model: the documents written so far, oldest
    first. Nothing in the pipeline reads, updates or deletes them. *)
Definition Collection : Type := list Fields.

(** What [Reservation.create] can reject with: the document fails the
    schema, or the driver fails. *)
Inductive Rejection : Type :=
| Invalid (errors : list ValidatorError)
| Unwritten (d : DriverError).

(** How the promise of [Reservation.create] settles. *)
Inductive Settled : Type :=
| Fulfilled (db : Collection)
| Rejected (reason : Rejection).

(** What a route handler does with a request: it calls [next(err)] or it
    sends a response. *)
Inductive Handled : Type :=
| Next (err : JsError)
| Sent (res : Response).


(** The body of a failure response. *)
Definition failureBody (m : string) : json :=
  JObj [("success", JBool false); ("message", JStr m)].

(** The body of the confirmation. *)
Definition successBody : json :=
  JObj [("success", JBool true); ("message", JStr "Reservation Sent Successfully!")].

Section Controller.

(** [isEmail] of the validator package. *)
Variable isEmail : string -> bool.

(** The message Mongoose composes for a [ValidationError]. *)
Variable validationMessage : list ValidatorError -> string.

Variable captureStackTrace : string -> string.

(** A [String] path declared with the given bounds. *)
Definition bounded (lo hi : nat) : SchemaType :=
  {| required := true; minLength := Some lo; maxLength := Some hi;
     validate := None |}.

(** A [String] path that is only required. *)
Definition plain : SchemaType :=
  {| required := true; minLength := None; maxLength := None;
     validate := None |}.

(** [reservationSchema]: the paths in the order of the literal, each with
    the variable of [Fields] it reads. *)
Definition reservationSchema : list (string * (Fields -> option string) * SchemaType) :=
  [ ("firstName", firstName, bounded 3 30);
    ("lastName", lastName, bounded 3 30);
    ("email", email,
      {| required := true; minLength := None; maxLength := None;
         validate := Some (isEmail, "Provide a valid email") |});
    ("phone", phone, bounded 10 10);
    ("time", time, plain);
    ("date", date, plain) ].

(** Validation of a document against a schema: one error for each path
    whose value a validator rejects. *)
Fixpoint validateSync
    (schema : list (string * (Fields -> option string) * SchemaType))
    (doc : Fields) : list ValidatorError :=
  match schema with
  | [] => []
  | (p, read, t) :: rest =>
    match checkPath t (read doc) with
    | Some k => {| path := p; kind := k; value := read doc |} :: validateSync rest doc
    | None => validateSync rest doc
    end
  end.

(** [Reservation.create(doc)]: the document is validated first and no write
    is attempted when it is invalid; the write appends one document unless
    the driver fails with [fault]. *)
Definition create (doc : Fields) (fault : option DriverError) (db : Collection) : Settled :=
  match validateSync reservationSchema doc with
  | [] =>
    match fault with
    | None => Fulfilled (db ++ [doc])%list
    | Some d => Rejected (Unwritten d)
    end
  | errors => Rejected (Invalid errors)
  end.

(** The error object of a rejection. *)
Definition thrown (reason : Rejection) : JsError :=
  match reason with
  | Invalid errors =>
    {| message := validationMessage errors;
       StatusCode := None;
       name := "ValidationError";
       stack := captureStackTrace (validationMessage errors) |}
  | Unwritten d => ofDriver d
  end.

(** What becomes of a rejection of the awaited [Reservation.create]:
    [sendReservation] has no [try] around the [await], so its own promise
    rejects with the same error, and that error is what reaches the error
    middleware, a [ValidationError] and a failure of the driver alike. The
    result is the argument of [next]. *)
Definition onRejected (reason : Rejection) : JsError :=
  thrown reason.

(** The guard of [sendReservation]:
    [!firstName || !lastName || !email || !phone || !date || !time]. *)
Definition incomplete (doc : Fields) : bool :=
  not_ (firstName doc) || not_ (lastName doc) || not_ (email doc)
  || not_ (phone doc) || not_ (date doc) || not_ (time doc).

(** [sendReservation(req, res, next)], on the body of the request, the
    state of the storage at the time of the write and the collection. *)
Definition sendReservation
    (body : gmap string string) (fault : option DriverError) (db : Collection)
    : Handled * Collection :=
  let doc := destructure body in
  if incomplete doc then
    (Next (ErrorHandler captureStackTrace "Please fill full reservation form!" (Some 400)), db)
  else
    match create doc fault db with
    | Fulfilled db' => (Sent {| status := 200; body := successBody |}, db')
    | Rejected reason => (Next (onRejected reason), db)
    end.

(** [POST /api/v1/reservation/send] as app.js mounts it: the route handler,
    then the error middleware for what it passes to [next]. *)
Definition submitReservation
    (body : gmap string string) (fault : option DriverError) (db : Collection)
    : Response * Collection :=
  match sendReservation body fault db with
  | (Next err, db') => (errorMiddleware err, db')
  | (Sent res, db') => (res, db')
  end.


End Controller.

(** The six property names of a submission. *)
Definition fieldNames : list string :=
  ["firstName"; "lastName"; "email"; "phone"; "date"; "time"].

(** A field that is absent or empty. *)
Definition missing (x : option string) : Prop :=
  x = None \/ x = Some "".

(** A field that is neither absent nor empty. *)
Definition present (x : option string) : Prop :=
  exists s, x = Some s /\ s <> "".

(** The length of a field, in code units, lies within the bounds. *)
Definition lengthIn (lo hi : nat) (x : option string) : Prop :=
  exists s, x = Some s /\ (lo <= String.length s <= hi)%nat.

(** The field holds what [isEmail] accepts. *)
Definition validEmail (isEmail : string -> bool) (x : option string) : Prop :=
  exists s, x = Some s /\ isEmail s = true.

(** All six fields are there. *)
Definition allPresent (body : gmap string string) : Prop :=
  Forall (fun k => present (body !! k)) fieldNames.

(** A well-formed submission: all six fields present, both names of length
    3 to 30, a valid email and a phone of exactly 10 characters. *)
Definition wellFormed (isEmail : string -> bool) (body : gmap string string) : Prop :=
  allPresent body
  /\ lengthIn 3 30 (body !! "firstName")
  /\ lengthIn 3 30 (body !! "lastName")
  /\ validEmail isEmail (body !! "email")
  /\ lengthIn 10 10 (body !! "phone").

(** Some field violates a constraint of the schema. *)
Definition violatesSchema (isEmail : string -> bool) (body : gmap string string) : Prop :=
  ~ lengthIn 3 30 (body !! "firstName")
  \/ ~ lengthIn 3 30 (body !! "lastName")
  \/ ~ validEmail isEmail (body !! "email")
  \/ ~ lengthIn 10 10 (body !! "phone").

End Reservation.

(** ** frontend/src/components/Reservation.jsx *)

Module Client.
Import Js.

(** The six [useState] cells of the form. *)
Record Form : Type := mkForm {
  firstName : string;
  lastName : string;
  email : string;
  date : string;
  time : string;
  phone : string
}.

(** Every cell starts as the empty string, and is reset to it. *)
Definition emptyForm : Form :=
  {| firstName := ""; lastName := ""; email := ""; date := ""; time := "";
     phone := "" |}.

(** The payload of the request: [{ firstName, lastName, email, phone, date,
    time }] with the current value of each cell. *)
Definition payload (f : Form) : gmap string string :=
  <["firstName" := firstName f]>
    (<["lastName" := lastName f]>
      (<["email" := email f]>
        (<["phone" := phone f]>
          (<["date" := date f]>
            (<["time" := time f]> ∅))))).

(** A notification: [toast.success(x)] or [toast.error(x)], with the value
    it was given. *)
Inductive Toast : Type :=
| ToastSuccess (shown : option json)
| ToastError (shown : option json).

(** The response an axios error carries when the server answered. *)
Record AxiosResponse : Type := mkAxiosResponse {
  status : Z;
  data : json
}.

(** The error [axios.post] rejects with: [response] is [undefined] when no
    answer arrived. *)
Record AxiosError : Type := mkAxiosError {
  response : option AxiosResponse;
  message : string
}.

(** How the awaited request settles. *)
Inductive Settled : Type :=
| Fulfilled (res : AxiosResponse)
| Rejected (error : AxiosError).

(** What the user sees: the form, the notifications raised so far and the
    route. *)
Record Page : Type := mkPage {
  form : Form;
  toasts : list Toast;
  location : string
}.

(** [error.response?.data?.message] *)
Definition serverMessage (error : AxiosError) : option json :=
  match response error with
  | Some res => prop "message" (Some (data res))
  | None => None
  end.

(** [error.response?.data?.message || error.message] *)
Definition errorText (error : AxiosError) : option json :=
  if truthy (serverMessage error) then serverMessage error
  else Some (JStr (message error)).

(** [handleReservation(e)] once the request has settled: the [try] block
    after the [await], or the [catch] block. *)
Definition handleReservation (settled : Settled) (page : Page) : Page :=
  match settled with
  | Fulfilled res =>
    {| form := emptyForm;
       toasts := (toasts page ++ [ToastSuccess (prop "message" (Some (data res)))])%list;
       location := "/success" |}
  | Rejected error =>
    {| form := form page;
       toasts := (toasts page ++ [ToastError (errorText error)])%list;
       location := location page |}
  end.

End Client.

(** ** frontend/src/Pages/Success.jsx *)

Module Success.

(** The confirmation view: the [countdown] cell, whether the interval set by
    the effect is still registered, whether the component is mounted, the
    route, and the calls of [navigate] made so far. *)
Record View : Type := mkView {
  countdown : Z;
  interval : bool;
  mounted : bool;
  location : string;
  navigations : list string
}.

(** Mounting: [useState(10)], and the effect registers the interval. *)
Definition mount : View :=
  {| countdown := 10; interval := true; mounted := true;
     location := "/success"; navigations := [] |}.

(** [clearInterval(timeoutId)] *)
Definition clearInterval (v : View) : View :=
  {| countdown := countdown v; interval := false; mounted := mounted v;
     location := location v; navigations := navigations v |}.

(** Teardown of the component: the cleanup the effect returned runs. *)
Definition unmount (v : View) : View :=
  if mounted v then
    let v' := clearInterval v in
    {| countdown := countdown v'; interval := interval v'; mounted := false;
       location := location v'; navigations := navigations v' |}
  else v.

(** [navigate(to)]: the route changes, and the router tears the view down
    when the new route is not its own. *)
Definition navigate (to : string) (v : View) : View :=
  let v' :=
    {| countdown := countdown v; interval := interval v; mounted := mounted v;
       location := to; navigations := (navigations v ++ [to])%list |} in
  if String.eqb to "/success" then v' else unmount v'.

(** [setCountdown(c)] *)
Definition setCountdown (c : Z) (v : View) : View :=
  {| countdown := c; interval := interval v; mounted := mounted v;
     location := location v; navigations := navigations v |}.

(** The updater passed to [setCountdown]: its effects on the view, and the
    new count. It runs once for each firing, as React runs it in a
    production build. *)
Definition updater (preCount : Z) (v : View) : Z * View :=
  let v' := if preCount =? 1 then navigate "/" (clearInterval v) else v in
  (preCount - 1, v').

(** One firing of the interval. A cleared interval does not fire. *)
Definition tick (v : View) : View :=
  if interval v then
    let '(c, v') := updater (countdown v) v in
    setCountdown c v'
  else v.

(** Modelled from the spec: the explicit navigation control of the view.
    The excerpt of Success.jsx shows the effect only; the control is the
    link to the home view the document lists under its features. It is
    there while the view is mounted, and following it goes through the
    router as [navigate] does. *)
Definition goHome (v : View) : View :=
  if mounted v then navigate "/" v else v.

(** What can happen to the view after it is mounted. *)
Inductive Event : Type :=
| Tick
| GoHome
| Unmount.

Definition step (v : View) (e : Event) : View :=
  match e with
  | Tick => tick v
  | GoHome => goHome v
  | Unmount => unmount v
  end.

(** The view after a sequence of events, earliest first. *)
Definition run (es : list Event) (v : View) : View :=
  fold_left step es v.

(** [n] firings of the interval in a row. *)
Definition ticks (n : nat) : list Event := repeat Tick n.

(** What holds of the view at every moment: a registered interval belongs
    to a mounted view, a mounted view has not navigated yet, and no more
    than one navigation has been made. *)
Definition consistent (v : View) : Prop :=
  (interval v = true -> mounted v = true)
  /\ (mounted v = true -> navigations v = [])
  /\ (length (navigations v) <= 1)%nat.

(** The view is torn down and its interval is gone. *)
Definition tornDown (v : View) : Prop :=
  mounted v = false /\ interval v = false.

End Success.

(** ** Concrete values *)

Module Sample.
Import Js Error Reservation.

(** A coarse stand-in for [isEmail]: some character of the string is an
    at sign. It serves to run the pipeline on concrete input. *)
Fixpoint isEmail (s : string) : bool :=
  match s with
  | EmptyString => false
  | String c rest => if Ascii.eqb c "@"%char then true else isEmail rest
  end.

(** A stand-in for the message of a [ValidationError]: the paths that
    failed. *)
Definition validationMessage (errors : list ValidatorError) : string :=
  String.concat ", " ("Reservation validation failed" :: map path errors).

Definition captureStackTrace (m : string) : string :=
  String.append "Error: " m.

(** The well-formed submission of the specification. *)
Definition john : gmap string string :=
  <["firstName" := "John"]>
    (<["lastName" := "Smith"]>
      (<["email" := "john@example.com"]>
        (<["phone" := "1234567890"]>
          (<["date" := "2025-01-01"]>
            (<["time" := "19:00"]> ∅))))).

(** The same submission with a phone number of nine characters. *)
Definition shortPhone : gmap string string :=
  <["phone" := "123456789"]> john.

(** The same submission without its date. *)
Definition noDate : gmap string string :=
  delete "date" john.

Definition refused : DriverError :=
  {| driverMessage := "connect ECONNREFUSED 127.0.0.1:27017";
     driverName := "MongoNetworkError";
     driverStack := "MongoNetworkError: connect ECONNREFUSED 127.0.0.1:27017" |}.

Definition timedOut : DriverError :=
  {| driverMessage := "Operation `reservations.insertOne()` buffering timed out after 10000ms";
     driverName := "MongooseError";
     driverStack := "MongooseError: Operation `reservations.insertOne()` buffering timed out after 10000ms" |}.

End Sample.

(** ** The error object after the middleware *)

Module ErrorObject.
Import Js Error.

(** The two assignments of [errorMiddleware] write to [err] itself: this is
    the error object they leave behind, as later code holding it sees it. *)
Definition defaulted (err : JsError) : JsError :=
  {| message :=
       if truthy_string (message err) then message err
       else "Internal Serve Error!";
     StatusCode :=
       Some match StatusCode err with
            | Some c => if c =? 0 then 500 else c
            | None => 500
            end;
     name := name err;
     stack := stack err |}.

End ErrorObject.

(** ** The service over a sequence of requests *)

Module Server.
Import Js Error Reservation.

(** A request as the service meets it: its body, and the state of the
    storage when its write is attempted. *)
Record Request : Type := mkRequest {
  reqBody : gmap string string;
  reqFault : option DriverError
}.

Section Serve.

Variable isEmail : string -> bool.
Variable validationMessage : list ValidatorError -> string.
Variable captureStackTrace : string -> string.

(** The requests handled one after the other, each on the collection the
    one before left: the responses in order, and the final collection. *)
Fixpoint serve (reqs : list Request) (db : Collection) : list Response * Collection :=
  match reqs with
  | [] => ([], db)
  | r :: rest =>
    let '(res, db1) :=
      submitReservation isEmail validationMessage captureStackTrace
        (reqBody r) (reqFault r) db in
    let '(ress, db2) := serve rest db1 in
    (res :: ress, db2)
  end.

End Serve.

(** The requests that were confirmed, given the responses they got. *)
Fixpoint confirmed (reqs : list Request) (ress : list Response) : list Request :=
  match reqs, ress with
  | r :: reqs', res :: ress' =>
    if status res =? 200 then r :: confirmed reqs' ress' else confirmed reqs' ress'
  | _, _ => []
  end.

End Server.

(** ** The form against the service *)

Module Browser.
Import Js.

Section Submit.

Variable isEmail : string -> bool.
Variable validationMessage : list Reservation.ValidatorError -> string.
Variable captureStackTrace : string -> string.

(** The message of the error axios rejects with for a status. *)
Variable requestFailed : Z -> string.

(** [validateStatus] as axios has it when the call sets none: a status from
    200 up to 299 fulfils the request, any other rejects it. *)
Definition validateStatus (status : Z) : bool :=
  (200 <=? status) && (status <? 300).

(** How [axios.post] settles on a response of the service. *)
Definition settle (res : Error.Response) : Client.Settled :=
  let answer :=
    {| Client.status := Error.status res; Client.data := Error.body res |} in
  if validateStatus (Error.status res) then Client.Fulfilled answer
  else
    Client.Rejected
      {| Client.response := Some answer;
         Client.message := requestFailed (Error.status res) |}.

(** One submission of the form, the service being reached:
    [handleReservation] posts the payload of the cells, the service answers,
    and the handler goes on with how the request settled. *)
Definition submitForm
    (fault : option Reservation.DriverError)
    (page : Client.Page) (db : Reservation.Collection)
    : Client.Page * Reservation.Collection :=
  let '(res, db') :=
    Reservation.submitReservation isEmail validationMessage captureStackTrace
      (Client.payload (Client.form page)) fault db in
  (Client.handleReservation (settle res) page, db').

End Submit.

(** The six cells of a form, in the order of the payload. *)
Definition cells (f : Client.Form) : list string :=
  [Client.firstName f; Client.lastName f; Client.email f; Client.phone f;
   Client.date f; Client.time f].

End Browser.

(** ** frontend/src/components/Qualities.jsx *)

Module Qualities.

(** An element of [ourQualities], with the four properties the component
    reads. *)
Record Quality : Type := mkQuality {
  id : Z;
  image : string;
  title : string;
  description : string
}.

(** An element of [data]: [ourQualities] may be missing from it. *)
Record Entry : Type := mkEntry {
  ourQualities : option (list Quality)
}.

(** What a component renders: an element with its tag, its [key], its
    attributes and its children, or a text. *)
Inductive Element : Type :=
| Elem (tag : string) (key : option Z) (attrs : list (string * string))
       (children : list Element)
| Text (s : string).

(** The card of one quality: the body of the arrow function given to
    [map]. *)
Definition card (quality : Quality) : Element :=
  Elem "div" (Some (id quality)) [("className", "card")]
    [ Elem "img" None [("src", image quality); ("alt", title quality)] [];
      Elem "h3" None [("className", "title")] [Text (title quality)];
      Elem "p" None [("className", "description")] [Text (description quality)] ].

(** [Qualities()]: [None] stands for the [TypeError] of reading a property
    of [undefined], when [data[0]] or its [ourQualities] is not there. *)
Definition Qualities (data : list Entry) : option Element :=
  match data with
  | [] => None
  | entry :: _ =>
    match ourQualities entry with
    | None => None
    | Some qualities =>
      Some (Elem "section" None [("className", "qualities")]
              [Elem "div" None [("className", "container")] (map card qualities)])
    end
  end.

(** The key of an element. *)
Definition keyOf (e : Element) : option Z :=
  match e with
  | Elem _ k _ _ => k
  | Text _ => None
  end.

(** The children of an element. *)
Definition childrenOf (e : Element) : list Element :=
  match e with
  | Elem _ _ _ children => children
  | Text _ => []
  end.

(** The cards of what [Qualities] renders: the children of the container
    inside the section. *)
Definition cardsOf (root : Element) : list Element :=
  match childrenOf root with
  | container :: _ => childrenOf container
  | [] => []
  end.

End Qualities.

(** ** More concrete values *)

Module Example.

Definition requestFailed (status : Z) : string :=
  if status =? 400 then "Request failed with status code 400"
  else "Request failed".

(** A form with every cell filled in but the time. *)
Definition noTime : Client.Form :=
  {| Client.firstName := "John"; Client.lastName := "Smith";
     Client.email := "john@example.com"; Client.date := "2025-01-01";
     Client.time := ""; Client.phone := "1234567890" |}.

Definition fresh : Client.Page :=
  {| Client.form := noTime; Client.toasts := []; Client.location := "/" |}.

Definition service : Qualities.Quality :=
  {| Qualities.id := 1; Qualities.image := "/service.png";
     Qualities.title := "COMMUNITY DEVELOPMENT";
     Qualities.description := "Serving the neighbourhood" |}.

Definition food : Qualities.Quality :=
  {| Qualities.id := 2; Qualities.image := "/food.png";
     Qualities.title := "TOP-QUALITY INGREDIENTS";
     Qualities.description := "Fresh every day" |}.

End Example.

(** * Properties *)

(** ** The error middleware *)

Section ErrorMiddleware.
Import Js Error Reservation.

Lemma truthy_string_true (s : string) :
  truthy_string s = true <-> s <> "".
Proof.
  unfold truthy_string. rewrite negb_true_iff, String.eqb_neq. tauto.
Qed.

Lemma truthy_string_false (s : string) :
  truthy_string s = false <-> s = "".
Proof.
  unfold truthy_string. rewrite negb_false_iff. apply String.eqb_eq.
Qed.

(** The response to an error whose message is not empty carries it. *)
Lemma errorMiddleware_message (err : JsError) :
  message err <> "" ->
  body (errorMiddleware err) = failureBody (message err).
Proof.
  intros H. apply truthy_string_true in H.
  unfold errorMiddleware, failureBody. simpl. now rewrite H.
Qed.

(** The response to an error without a message carries the default. *)
Lemma errorMiddleware_default_message (err : JsError) :
  message err = "" ->
  body (errorMiddleware err) = failureBody "Internal Serve Error!".
Proof.
  intros H. unfold errorMiddleware, failureBody. simpl. now rewrite H.
Qed.

(** Every response of the middleware is a failure body with a message that
    is not empty. *)
Lemma errorMiddleware_shape (err : JsError) :
  exists m, body (errorMiddleware err) = failureBody m /\ m <> "".
Proof.
  destruct (String.eqb_spec (message err) "") as [E | N].
  - exists "Internal Serve Error!".
    split; [now apply errorMiddleware_default_message | discriminate].
  - exists (message err). split; [now apply errorMiddleware_message | exact N].
Qed.

Lemma errorMiddleware_status_set (err : JsError) (c : Z) :
  StatusCode err = Some c -> c <> 0 -> status (errorMiddleware err) = c.
Proof.
  intros H N. unfold errorMiddleware. simpl. rewrite H.
  destruct (Z.eqb_spec c 0); [contradiction | reflexivity].
Qed.

Lemma errorMiddleware_status_default (err : JsError) :
  StatusCode err = None \/ StatusCode err = Some 0 ->
  status (errorMiddleware err) = 500.
Proof.
  intros [H | H]; unfold errorMiddleware; simpl; now rewrite H.
Qed.


(** C10, as stated, fails: an error whose [StatusCode] is set to [0] is
    answered with status 500, not with its own status code. *)
Lemma errorMiddleware_zero_StatusCode :
  let err := {| message := "boom"; StatusCode := Some 0; name := "Error"; stack := "" |} in
  ~ (forall c, StatusCode err = Some c -> status (errorMiddleware err) = c).
Proof.
  intros err H. specialize (H 0 eq_refl). discriminate H.
Qed.

(** C10, amended: for every error object passed to [errorMiddleware], the
    response status is the error's [StatusCode] when one is set and is not
    zero, and 500 otherwise; the body is [{ success: false, message }] whose
    message is the error's own message when that is not empty and the fixed
    string "Internal Serve Error!" otherwise; so every failure response
    carries a message that is not empty. *)
Theorem errorMiddleware_response (err : JsError) :
  (forall c, StatusCode err = Some c -> c <> 0 -> status (errorMiddleware err) = c)
  /\ (StatusCode err = None \/ StatusCode err = Some 0 ->
      status (errorMiddleware err) = 500)
  /\ (message err <> "" -> body (errorMiddleware err) = failureBody (message err))
  /\ (message err = "" ->
      body (errorMiddleware err) = failureBody "Internal Serve Error!")
  /\ (exists m, body (errorMiddleware err) = failureBody m /\ m <> "").
Proof.
  split; [| split; [| split; [| split]]].
  - intros c. apply errorMiddleware_status_set.
  - apply errorMiddleware_status_default.
  - apply errorMiddleware_message.
  - apply errorMiddleware_default_message.
  - apply errorMiddleware_shape.
Qed.

Lemma errorMiddleware_response_witness :
  let bad := ErrorHandler Sample.captureStackTrace "Please fill full reservation form!" (Some 400) in
  let bare := ErrorHandler Sample.captureStackTrace "" None in
  errorMiddleware bad
  = {| status := 400; body := failureBody "Please fill full reservation form!" |}
  /\ errorMiddleware bare
     = {| status := 500; body := failureBody "Internal Serve Error!" |}.
Proof.
  intros bad bare.
  destruct (errorMiddleware_response bad) as (S1 & _ & B1 & _).
  destruct (errorMiddleware_response bare) as (_ & S2 & _ & B2 & _).
  specialize (S1 400 eq_refl ltac:(discriminate)).
  specialize (B1 ltac:(discriminate)).
  specialize (S2 (or_introl eq_refl)).
  specialize (B2 eq_refl).
  split.
  - destruct (errorMiddleware bad) as [st bd]. simpl in *. now subst.
  - destruct (errorMiddleware bare) as [st bd]. simpl in *. now subst.
Defined.




End ErrorMiddleware.

(** ** The intake service *)

Section Intake.
Import Js Error Reservation.

Variable isEmail : string -> bool.
Variable validationMessage : list ValidatorError -> string.
Variable captureStackTrace : string -> string.

Local Abbreviation submit := (submitReservation isEmail validationMessage captureStackTrace).
Local Abbreviation schema := (reservationSchema isEmail).

Lemma not_missing (x : option string) : not_ x = true <-> missing x.
Proof.
  unfold missing. destruct x as [s|]; simpl.
  - rewrite negb_true_iff, truthy_string_false.
    split; [intros ->; now right | intros [H | [= ->]]; [discriminate | reflexivity]].
  - split; [now left | reflexivity].
Qed.

Lemma not_present (x : option string) : not_ x = false <-> present x.
Proof.
  unfold present. destruct x as [s|]; simpl.
  - rewrite negb_false_iff, truthy_string_true.
    split; [eauto | intros (s' & [= <-] & H); exact H].
  - split; [discriminate | intros (s & H & _); discriminate].
Qed.

(** The guard fires as soon as one field is absent or empty. *)
Lemma incomplete_missing (body : gmap string string) (k : string) :
  k ∈ fieldNames -> missing (body !! k) ->
  incomplete (destructure body) = true.
Proof.
  intros Hk Hm. apply not_missing in Hm. unfold fieldNames in Hk.
  repeat (apply elem_of_cons in Hk as [-> | Hk]);
    [.. | now apply elem_of_nil in Hk];
    unfold incomplete, destructure; simpl; rewrite Hm;
    repeat (rewrite orb_true_r || rewrite orb_true_l); reflexivity.
Qed.

(** The guard lets a submission through when all six fields are there. *)
Lemma incomplete_present (body : gmap string string) :
  allPresent body -> incomplete (destructure body) = false.
Proof.
  unfold allPresent, fieldNames. rewrite !Forall_cons.
  intros (H1 & H2 & H3 & H4 & H5 & H6 & _).
  apply not_present in H1, H2, H3, H4, H5, H6.
  unfold incomplete, destructure; simpl.
  now rewrite H1, H2, H3, H4, H5, H6.
Qed.

(** A document passes validation exactly when no path rejects its value. *)
Lemma validateSync_nil
    (sch : list (string * (Fields -> option string) * SchemaType)) (doc : Fields) :
  validateSync sch doc = []
  <-> Forall (fun entry => checkPath (snd entry) (snd (fst entry) doc) = None) sch.
Proof.
  induction sch as [| [[p read] t] rest IH]; simpl.
  - split; [constructor | reflexivity].
  - rewrite Forall_cons. simpl.
    destruct (checkPath t (read doc)) as [k|].
    + split; [discriminate | intros [H _]; discriminate].
    + rewrite IH. tauto.
Qed.

Lemma checkPath_bounded (lo hi : nat) (x : option string) :
  present x ->
  (checkPath (bounded lo hi) x = None <-> lengthIn lo hi x).
Proof.
  intros (s & -> & Hs). apply truthy_string_true in Hs.
  unfold checkPath, tooShort, tooLong, userDefined, lengthIn. simpl. rewrite Hs. simpl.
  destruct (Nat.ltb_spec (String.length s) lo) as [Hlo | Hlo].
  - split; [discriminate | intros (s' & [= <-] & H); lia].
  - destruct (Nat.ltb_spec hi (String.length s)) as [Hhi | Hhi].
    + split; [discriminate | intros (s' & [= <-] & H); lia].
    + split; [intros _; exists s; split; [reflexivity | lia] | reflexivity].
Qed.

Lemma checkPath_plain (x : option string) :
  present x -> checkPath plain x = None.
Proof.
  intros (s & -> & Hs). apply truthy_string_true in Hs.
  unfold checkPath, tooShort, tooLong, userDefined. simpl. now rewrite Hs.
Qed.

Lemma checkPath_email (x : option string) :
  present x ->
  (checkPath {| required := true; minLength := None; maxLength := None;
                validate := Some (isEmail, "Provide a valid email") |} x = None
   <-> validEmail isEmail x).
Proof.
  intros (s & -> & Hs). apply truthy_string_true in Hs.
  unfold checkPath, tooShort, tooLong, userDefined, validEmail. simpl. rewrite Hs. simpl.
  destruct (isEmail s) eqn:E.
  - split; [intros _; now exists s | reflexivity].
  - split; [discriminate | intros (s' & [= <-] & H); congruence].
Qed.

(** With all six fields there, the schema accepts the document exactly
    when the submission is well-formed. *)
Lemma validateSync_wellFormed (body : gmap string string) :
  allPresent body ->
  (validateSync schema (destructure body) = [] <-> wellFormed isEmail body).
Proof.
  intros Hall. unfold wellFormed.
  pose proof Hall as Hp. unfold allPresent, fieldNames in Hp.
  rewrite !Forall_cons in Hp. destruct Hp as (P1 & P2 & P3 & P4 & P5 & P6 & _).
  rewrite validateSync_nil. unfold reservationSchema.
  rewrite !Forall_cons, Forall_nil. simpl.
  rewrite !checkPath_bounded, checkPath_email by assumption.
  rewrite !checkPath_plain by assumption.
  tauto.
Qed.

Lemma submit_incomplete (body : gmap string string) (fault : option DriverError) (db : Collection) :
  incomplete (destructure body) = true ->
  submit body fault db
  = ({| status := 400; body := failureBody "Please fill full reservation form!" |}, db).
Proof.
  intros H. unfold submitReservation, sendReservation. rewrite H. reflexivity.
Qed.

Lemma submit_accepted (body : gmap string string) (db : Collection) :
  wellFormed isEmail body ->
  submit body None db
  = ({| status := 200; body := successBody |}, (db ++ [destructure body])%list).
Proof.
  intros H. pose proof H as (Hall & _).
  unfold submitReservation, sendReservation, create.
  rewrite (incomplete_present _ Hall).
  apply (validateSync_wellFormed _ Hall) in H. now rewrite H.
Qed.

(** A document the schema rejects is answered with status 500, the
    [ValidationError] carrying no status code, whatever the state of the
    storage, and nothing is written. *)
Lemma submit_invalid (body : gmap string string) (fault : option DriverError) (db : Collection) :
  allPresent body -> ~ wellFormed isEmail body ->
  exists m,
    m <> ""
    /\ submit body fault db = ({| status := 500; body := failureBody m |}, db).
Proof.
  intros Hall Hbad.
  rewrite <- (validateSync_wellFormed _ Hall) in Hbad.
  unfold submitReservation, sendReservation, create.
  rewrite (incomplete_present _ Hall).
  destruct (validateSync schema (destructure body)) as [| e errors] eqn:E;
    [contradiction |].
  simpl.
  destruct (errorMiddleware_shape
              (onRejected validationMessage captureStackTrace (Invalid (e :: errors))))
    as (m & Hm & Hne).
  exists m. split; [exact Hne |]. f_equal.
  destruct (errorMiddleware _) as [st bd] eqn:R. simpl in Hm. subst bd.
  f_equal. apply (f_equal status) in R. simpl in R. congruence.
Qed.

(** A failure of the driver on a well-formed submission reaches the
    middleware as it is, and nothing is written. *)
Lemma submit_unwritten (body : gmap string string) (d : DriverError) (db : Collection) :
  wellFormed isEmail body ->
  submit body (Some d) db = (errorMiddleware (ofDriver d), db).
Proof.
  intros H. pose proof H as (Hall & _).
  unfold submitReservation, sendReservation, create.
  rewrite (incomplete_present _ Hall).
  apply (validateSync_wellFormed _ Hall) in H. now rewrite H.
Qed.


(** C1: a submission in which one of the six fields is absent or empty
    fails with status 400 and the fixed message of the guard, and the
    collection is left as it was, whatever the other fields hold and
    whatever the state of the storage. *)
Theorem incomplete_submission_rejected
    (body : gmap string string) (fault : option DriverError) (db : Collection)
    (k : string) :
  k ∈ fieldNames -> missing (body !! k) ->
  submit body fault db
  = ({| status := 400; body := failureBody "Please fill full reservation form!" |}, db).
Proof.
  intros Hk Hm. apply submit_incomplete. now apply (incomplete_missing body k).
Qed.

(** C2: a well-formed submission, written to a storage that takes the
    write, is answered with status 200 and the body
    [{ success: true, message }], and exactly one document is added to the
    collection, holding the six submitted values. *)
Theorem well_formed_submission_persisted
    (body : gmap string string) (db : Collection) :
  wellFormed isEmail body ->
  submit body None db
  = ({| status := 200;
        body := JObj [("success", JBool true);
                      ("message", JStr "Reservation Sent Successfully!")] |},
     (db ++ [ {| firstName := body !! "firstName";
                 lastName := body !! "lastName";
                 email := body !! "email";
                 phone := body !! "phone";
                 date := body !! "date";
                 time := body !! "time" |} ])%list).
Proof.
  intros H. now rewrite submit_accepted.
Qed.



(** C6: the same well-formed payload submitted twice in a row, each time
    to a storage that takes the write, is confirmed twice and leaves two
    documents in the collection, each holding the submitted values:
    nothing de-duplicates. *)
Theorem repeated_submission_two_records
    (body : gmap string string) (db : Collection) :
  wellFormed isEmail body ->
  let first := submit body None db in
  let second := submit body None (snd first) in
  status (fst first) = 200
  /\ status (fst second) = 200
  /\ snd second = (db ++ [destructure body; destructure body])%list
  /\ length (snd second) = S (S (length db)).
Proof.
  intros H first second. subst first second.
  rewrite !submit_accepted by exact H. simpl.
  rewrite <- app_assoc. simpl.
  repeat split. rewrite length_app. simpl. lia.
Qed.

End Intake.


(** ** The intake service on concrete submissions *)

Section IntakeRuns.
Import Js Error Reservation.

Local Abbreviation submit :=
  (submitReservation Sample.isEmail Sample.validationMessage Sample.captureStackTrace).

(** Presence of the six fields of a concrete body, by looking each up. *)
Ltac all_present :=
  unfold allPresent, fieldNames;
  repeat (apply Forall_cons; split); try apply Forall_nil; try exact I;
  (eexists; split; [vm_compute; reflexivity | discriminate]).

Lemma john_allPresent : allPresent Sample.john.
Proof. all_present. Qed.

Lemma john_wellFormed : wellFormed Sample.isEmail Sample.john.
Proof.
  unfold wellFormed. split; [exact john_allPresent |].
  repeat split;
    (eexists; split; [vm_compute; reflexivity | vm_compute; try lia; try reflexivity]).
Qed.


Lemma shortPhone_violatesSchema : violatesSchema Sample.isEmail Sample.shortPhone.
Proof.
  unfold violatesSchema. right; right; right.
  intros (s & Hs & Hlen). vm_compute in Hs. injection Hs as <-.
  vm_compute in Hlen. lia.
Qed.

Lemma incomplete_submission_rejected_witness :
  missing (Sample.noDate !! "date")
  /\ submit Sample.noDate None []
     = ({| status := 400; body := failureBody "Please fill full reservation form!" |}, []).
Proof.
  assert (Hm : missing (Sample.noDate !! "date")) by (left; vm_compute; reflexivity).
  split; [exact Hm |].
  apply (incomplete_submission_rejected
           Sample.isEmail Sample.validationMessage Sample.captureStackTrace
           Sample.noDate None [] "date").
  - unfold fieldNames. rewrite !elem_of_cons. tauto.
  - exact Hm.
Defined.

Lemma well_formed_submission_persisted_witness :
  wellFormed Sample.isEmail Sample.john
  /\ submit Sample.john None []
     = ({| status := 200; body := successBody |},
        [ {| firstName := Some "John"; lastName := Some "Smith";
             email := Some "john@example.com"; phone := Some "1234567890";
             date := Some "2025-01-01"; time := Some "19:00" |} ]).
Proof.
  split; [exact john_wellFormed |].
  rewrite (well_formed_submission_persisted
             Sample.isEmail Sample.validationMessage Sample.captureStackTrace
             Sample.john [] john_wellFormed).
  vm_compute. reflexivity.
Defined.


Lemma repeated_submission_two_records_witness :
  let first := submit Sample.john None [] in
  let second := submit Sample.john None (snd first) in
  status (fst first) = 200
  /\ status (fst second) = 200
  /\ snd second = [destructure Sample.john; destructure Sample.john]
  /\ length (snd second) = 2%nat.
Proof.
  exact (repeated_submission_two_records
           Sample.isEmail Sample.validationMessage Sample.captureStackTrace
           Sample.john [] john_wellFormed).
Defined.

End IntakeRuns.

(** ** The form client *)

Section FormClient.
Import Js.

(** What the controller destructures from the payload of the form: every
    field is there, holding the value of its cell. A field of the form can
    reach the service empty, never absent. *)
Lemma destructure_payload (f : Client.Form) :
  Reservation.destructure (Client.payload f)
  = {| Reservation.firstName := Some (Client.firstName f);
       Reservation.lastName := Some (Client.lastName f);
       Reservation.email := Some (Client.email f);
       Reservation.phone := Some (Client.phone f);
       Reservation.date := Some (Client.date f);
       Reservation.time := Some (Client.time f) |}.
Proof.
  unfold Reservation.destructure, Client.payload.
  f_equal; simplify_map_eq; reflexivity.
Qed.

(** C9: on a failed submission the handler raises one error notification,
    showing the message of the server's failure body when the server sent
    one and the message of the request error otherwise, and leaves the six
    fields and the route as they were; on a successful submission it raises
    one success notification with the message of the response, resets the
    six fields to the empty string and moves to the confirmation view. *)
Theorem handleReservation_outcome (page : Client.Page) :
  (forall error : Client.AxiosError,
     let page' := Client.handleReservation (Client.Rejected error) page in
     Client.form page' = Client.form page
     /\ Client.location page' = Client.location page
     /\ (forall (st : Z) (m : string),
           Client.response error
           = Some {| Client.status := st; Client.data := Reservation.failureBody m |} ->
           m <> "" ->
           Client.toasts page'
           = (Client.toasts page ++ [Client.ToastError (Some (JStr m))])%list)
     /\ (truthy (Client.serverMessage error) = false ->
           Client.toasts page'
           = (Client.toasts page
              ++ [Client.ToastError (Some (JStr (Client.message error)))])%list))
  /\ (forall res : Client.AxiosResponse,
        let page' := Client.handleReservation (Client.Fulfilled res) page in
        Client.form page'
        = {| Client.firstName := ""; Client.lastName := ""; Client.email := "";
             Client.date := ""; Client.time := ""; Client.phone := "" |}
        /\ Client.location page' = "/success"
        /\ Client.toasts page'
           = (Client.toasts page
              ++ [Client.ToastSuccess (prop "message" (Some (Client.data res)))])%list).
Proof.
  split.
  - intros error page'. subst page'. simpl. repeat split.
    + intros st m Hres Hm. unfold Client.errorText, Client.serverMessage.
      rewrite Hres. simpl. apply truthy_string_true in Hm. now rewrite Hm.
    + intros Hfalse. unfold Client.errorText. now rewrite Hfalse.
  - intros res page'. subst page'. simpl. repeat split.
Qed.

Lemma handleReservation_outcome_witness :
  let filled :=
    {| Client.form :=
         {| Client.firstName := "John"; Client.lastName := "Smith";
            Client.email := "john@example.com"; Client.date := "";
            Client.time := "19:00"; Client.phone := "1234567890" |};
       Client.toasts := [];
       Client.location := "/" |} in
  let refusal :=
    {| Client.response :=
         Some {| Client.status := 400;
                 Client.data := Reservation.failureBody "Please fill full reservation form!" |};
       Client.message := "Request failed with status code 400" |} in
  let offline :=
    {| Client.response := None; Client.message := "Network Error" |} in
  Client.toasts (Client.handleReservation (Client.Rejected refusal) filled)
  = [Client.ToastError (Some (JStr "Please fill full reservation form!"))]
  /\ Client.toasts (Client.handleReservation (Client.Rejected offline) filled)
     = [Client.ToastError (Some (JStr "Network Error"))].
Proof.
  intros filled refusal offline.
  destruct (handleReservation_outcome filled) as (Hfail & _).
  split.
  - destruct (Hfail refusal) as (_ & _ & Hserver & _).
    apply (Hserver 400 "Please fill full reservation form!");
      [reflexivity | discriminate].
  - destruct (Hfail offline) as (_ & _ & _ & Hnone).
    apply Hnone. reflexivity.
Defined.

End FormClient.

(** ** The confirmation view *)

Section ConfirmationView.
Import Success.

Lemma run_snoc (es : list Event) (e : Event) (v : View) :
  run (es ++ [e]) v = step (run es v) e.
Proof. unfold run. now rewrite fold_left_app. Qed.

Lemma ticks_S (n : nat) : ticks (S n) = (ticks n ++ [Tick])%list.
Proof.
  unfold ticks. induction n as [| n IH]; [reflexivity |].
  simpl in *. now rewrite <- IH.
Qed.

(** While fewer than ten firings have happened the view only counts. *)
Lemma run_ticks_counting (n : nat) :
  (n < 10)%nat ->
  run (ticks n) mount
  = {| countdown := 10 - Z.of_nat n; interval := true; mounted := true;
       location := "/success"; navigations := [] |}.
Proof.
  induction n as [| n IH]; intros Hn; [reflexivity |].
  rewrite ticks_S, run_snoc, IH by lia. simpl.
  unfold tick, updater. simpl.
  destruct (Z.eqb_spec (10 - Z.of_nat n) 1) as [E | _]; [lia |].
  unfold setCountdown. simpl. f_equal. lia.
Qed.

(** The view once the tenth firing has happened. *)
Lemma run_ticks_ten :
  run (ticks 10) mount
  = {| countdown := 0; interval := false; mounted := false;
       location := "/"; navigations := ["/"] |}.
Proof.
  rewrite ticks_S, run_snoc, run_ticks_counting by lia. reflexivity.
Qed.

(** A view without its interval ignores the firings. *)
Lemma run_ticks_cleared (n : nat) (v : View) :
  interval v = false -> run (ticks n) v = v.
Proof.
  intros H. induction n as [| n IH]; [reflexivity |].
  rewrite ticks_S, run_snoc, IH. simpl. unfold tick. now rewrite H.
Qed.

Lemma ticks_add (n m : nat) : ticks (n + m) = (ticks n ++ ticks m)%list.
Proof. unfold ticks. apply repeat_app. Qed.

Lemma run_app (es es' : list Event) (v : View) :
  run (es ++ es') v = run es' (run es v).
Proof. unfold run. apply fold_left_app. Qed.

Lemma run_ticks_redirected (n : nat) :
  (10 <= n)%nat ->
  run (ticks n) mount
  = {| countdown := 0; interval := false; mounted := false;
       location := "/"; navigations := ["/"] |}.
Proof.
  intros Hn. replace n with (10 + (n - 10))%nat by lia.
  rewrite ticks_add, run_app, run_ticks_ten.
  now apply run_ticks_cleared.
Qed.

(** C7: the countdown starts at 10; each of the first nine firings of the
    interval takes one off and navigates nowhere; the tenth takes the count
    to zero, clears the interval and navigates to the home view; and however
    many firings are counted after that, the navigation stays the only
    one. *)
Theorem countdown_redirects (n : nat) :
  countdown mount = 10
  /\ ((n < 10)%nat ->
      countdown (run (ticks n) mount) = 10 - Z.of_nat n
      /\ navigations (run (ticks n) mount) = []
      /\ location (run (ticks n) mount) = "/success"
      /\ countdown (run (ticks (S n)) mount) = countdown (run (ticks n) mount) - 1)
  /\ ((10 <= n)%nat ->
      countdown (run (ticks n) mount) = 0
      /\ navigations (run (ticks n) mount) = ["/"]
      /\ location (run (ticks n) mount) = "/"
      /\ interval (run (ticks n) mount) = false).
Proof.
  split; [reflexivity | split].
  - intros Hn. pose proof (run_ticks_counting n Hn) as E.
    assert (countdown (run (ticks (S n)) mount) = 10 - Z.of_nat n - 1) as E'.
    { destruct (Nat.eq_dec n 9) as [-> | Hne].
      - now rewrite run_ticks_ten.
      - rewrite (run_ticks_counting (S n)) by lia.
        cbn [countdown]. lia. }
    rewrite E', E. repeat split.
  - intros Hn. rewrite run_ticks_redirected by exact Hn. repeat split.
Qed.

Lemma countdown_redirects_witness :
  countdown (run (ticks 3) mount) = 7
  /\ navigations (run (ticks 9) mount) = []
  /\ navigations (run (ticks 10) mount) = ["/"]
  /\ navigations (run (ticks 25) mount) = ["/"].
Proof.
  destruct (countdown_redirects 3) as (_ & H3 & _).
  destruct (countdown_redirects 9) as (_ & H9 & _).
  destruct (countdown_redirects 10) as (_ & _ & H10).
  destruct (countdown_redirects 25) as (_ & _ & H25).
  destruct (H3 (proj1 (Nat.ltb_lt 3 10) eq_refl)) as (C3 & _).
  destruct (H9 (proj1 (Nat.ltb_lt 9 10) eq_refl)) as (_ & N9 & _).
  destruct (H10 (proj1 (Nat.leb_le 10 10) eq_refl)) as (_ & N10 & _).
  destruct (H25 (proj1 (Nat.leb_le 10 25) eq_refl)) as (_ & N25 & _).
  repeat split; assumption.
Defined.

Lemma consistent_mount : consistent mount.
Proof. unfold consistent. simpl. repeat split; [lia]. Qed.

Lemma consistent_unmount (v : View) : consistent v -> consistent (unmount v).
Proof.
  intros (H1 & H2 & H3). unfold unmount.
  destruct (mounted v) eqn:M; unfold consistent; simpl.
  - repeat split; [discriminate | discriminate | exact H3].
  - rewrite M. repeat split; assumption.
Qed.

Lemma tornDown_unmount (v : View) :
  consistent v -> tornDown (unmount v).
Proof.
  intros (H1 & _). unfold unmount, tornDown.
  destruct (mounted v) eqn:M; simpl; [now split |].
  split; [exact M |].
  destruct (interval v); [specialize (H1 eq_refl); discriminate | reflexivity].
Qed.

Lemma consistent_goHome (v : View) : consistent v -> consistent (goHome v).
Proof.
  intros Hc. pose proof Hc as (H1 & H2 & H3). unfold goHome.
  destruct (mounted v) eqn:M; [| exact Hc].
  unfold navigate, unmount. simpl. rewrite M. unfold consistent. simpl.
  rewrite (H2 eq_refl). simpl. repeat split; [discriminate | discriminate | lia].
Qed.

Lemma tornDown_goHome (v : View) :
  consistent v -> tornDown (goHome v).
Proof.
  intros (H1 & _). unfold goHome, tornDown.
  destruct (mounted v) eqn:M.
  - unfold navigate, unmount. simpl. rewrite M. simpl. now split.
  - split; [exact M |].
    destruct (interval v); [specialize (H1 eq_refl); discriminate | reflexivity].
Qed.

Lemma consistent_tick (v : View) : consistent v -> consistent (tick v).
Proof.
  intros Hc. pose proof Hc as (H1 & H2 & H3). unfold tick.
  destruct (interval v) eqn:I; [| exact Hc].
  specialize (H1 eq_refl). specialize (H2 H1).
  unfold updater. destruct (countdown v =? 1).
  - unfold navigate, unmount, clearInterval, setCountdown, consistent. simpl.
    rewrite H1, H2. simpl. repeat split; [discriminate | discriminate | lia].
  - unfold setCountdown, consistent. simpl. rewrite H2. simpl.
    repeat split; [intros _; exact H1 | lia].
Qed.

Lemma consistent_step (v : View) (e : Event) : consistent v -> consistent (step v e).
Proof.
  destruct e; simpl;
    [apply consistent_tick | apply consistent_goHome | apply consistent_unmount].
Qed.

Lemma consistent_run (es : list Event) (v : View) :
  consistent v -> consistent (run es v).
Proof.
  revert v. induction es as [| e es IH]; intros v Hv; [exact Hv |].
  simpl. apply IH. now apply consistent_step.
Qed.

(** Nothing happens to a view that is torn down. *)
Lemma tornDown_step (v : View) (e : Event) : tornDown v -> step v e = v.
Proof.
  intros (M & I). destruct e; simpl.
  - unfold tick. now rewrite I.
  - unfold goHome. now rewrite M.
  - unfold unmount. now rewrite M.
Qed.

Lemma tornDown_run (es : list Event) (v : View) : tornDown v -> run es v = v.
Proof.
  intros H. induction es as [| e es IH]; [reflexivity |].
  simpl. rewrite (tornDown_step v e H). exact IH.
Qed.

(** C8: whatever has happened to the view since it was mounted, following
    the link home or unmounting the view leaves it torn down with its
    interval cleared; from then on no firing of the timer, and no other
    event, changes anything; following the link while the view is mounted
    makes the one navigation there is; and on no sequence of events is a
    second navigation made. *)
Theorem countdown_cancelled (es : list Event) :
  (length (navigations (run es mount)) <= 1)%nat
  /\ (forall after : list Event,
        let v := step (run es mount) Unmount in
        tornDown v /\ run after v = v
        /\ navigations v = navigations (run es mount))
  /\ (forall after : list Event,
        let v := step (run es mount) GoHome in
        tornDown v /\ run after v = v
        /\ (mounted (run es mount) = true -> navigations v = ["/"])).
Proof.
  pose proof (consistent_run es mount consistent_mount) as Hc.
  split; [apply Hc | split].
  - intros after v. subst v. simpl.
    pose proof (tornDown_unmount _ Hc) as Ht.
    repeat split; try apply Ht.
    + now apply tornDown_run.
    + unfold unmount. now destruct (mounted (run es mount)).
  - intros after v. subst v. simpl.
    pose proof (tornDown_goHome _ Hc) as Ht.
    repeat split; try apply Ht.
    + now apply tornDown_run.
    + intros M. destruct Hc as (_ & H2 & _).
      unfold goHome. rewrite M.
      unfold navigate, unmount. cbn. rewrite M. cbn.
      now rewrite (H2 M).
Qed.

Lemma countdown_cancelled_witness :
  let v := step (run (ticks 4) mount) GoHome in
  navigations v = ["/"] /\ run (ticks 20) v = v.
Proof.
  intros v. destruct (countdown_cancelled (ticks 4)) as (_ & _ & H).
  destruct (H (ticks 20)) as (_ & Hstay & Hnav).
  split; [apply Hnav; reflexivity | exact Hstay].
Defined.

End ConfirmationView.

(** * Further properties *)

(** ** The error class and the middleware together *)

Section ErrorObjects.
Import Js Error Reservation ErrorObject.

(** The whole response of the middleware, from its status and a message. *)
Lemma errorMiddleware_eta (err : JsError) :
  exists m,
    m <> ""
    /\ errorMiddleware err
       = {| status := status (errorMiddleware err); body := failureBody m |}.
Proof.
  destruct (errorMiddleware_shape err) as (m & Hm & Hne).
  exists m. split; [exact Hne |].
  destruct (errorMiddleware err) as [st bd]. simpl in *. now subst.
Qed.

(** X1: an [ErrorHandler] built with a message that is not empty and a
    status code that is not zero comes out of the middleware with exactly
    that status and that message, whatever trace the engine recorded; built
    without a status code, it comes out with status 500. *)
Theorem ErrorHandler_through_middleware
    (captureStackTrace : string -> string) (m : string) (c : Z) :
  m <> "" -> c <> 0 ->
  errorMiddleware (ErrorHandler captureStackTrace m (Some c))
  = {| status := c; body := failureBody m |}
  /\ errorMiddleware (ErrorHandler captureStackTrace m None)
     = {| status := 500; body := failureBody m |}.
Proof.
  intros Hm Hc. apply truthy_string_true in Hm.
  unfold errorMiddleware, ErrorHandler, failureBody. simpl. rewrite Hm.
  destruct (Z.eqb_spec c 0); [contradiction | now split].
Qed.

Lemma ErrorHandler_through_middleware_witness :
  errorMiddleware (ErrorHandler Sample.captureStackTrace "Table taken" (Some 409))
  = {| status := 409; body := failureBody "Table taken" |}
  /\ errorMiddleware (ErrorHandler Sample.captureStackTrace "Table taken" None)
     = {| status := 500; body := failureBody "Table taken" |}.
Proof.
  apply (ErrorHandler_through_middleware Sample.captureStackTrace "Table taken" 409);
    discriminate.
Defined.

(** X2: the middleware leaves the error object with a message that is not
    empty and a status code that is set and not zero, and these are what it
    sends; name and stack are untouched; handing the same object to the
    middleware again changes nothing more and sends the same response. *)
Theorem errorMiddleware_defaults_once (err : JsError) :
  message (defaulted err) <> ""
  /\ StatusCode (defaulted err) = Some (status (errorMiddleware err))
  /\ status (errorMiddleware err) <> 0
  /\ body (errorMiddleware err) = failureBody (message (defaulted err))
  /\ name (defaulted err) = name err
  /\ stack (defaulted err) = stack err
  /\ defaulted (defaulted err) = defaulted err
  /\ errorMiddleware (defaulted err) = errorMiddleware err.
Proof.
  destruct err as [m c n s].
  unfold defaulted, errorMiddleware, failureBody. simpl.
  destruct (truthy_string m) eqn:Em;
    [| change (truthy_string "Internal Serve Error!") with true];
    rewrite ?Em;
    (destruct c as [c |];
       [destruct (c =? 0) eqn:Ec; simpl; rewrite ?Ec | simpl]);
    repeat split;
    try discriminate;
    try (now apply truthy_string_true);
    now apply Z.eqb_neq.
Qed.

End ErrorObjects.

(** ** The schema and the service on every request *)

Section IntakeWhole.
Import Js Error Reservation Server.

Variable isEmail : string -> bool.
Variable validationMessage : list ValidatorError -> string.
Variable captureStackTrace : string -> string.

Local Abbreviation submit := (submitReservation isEmail validationMessage captureStackTrace).
Local Abbreviation schema := (reservationSchema isEmail).
Local Abbreviation serve := (Server.serve isEmail validationMessage captureStackTrace).

(** A required path lets only a value that is there through. *)
Lemma checkPath_None_present (t : SchemaType) (x : option string) :
  required t = true -> checkPath t x = None -> present x.
Proof.
  intros Hr. unfold checkPath. rewrite Hr.
  destruct x as [s |]; [| discriminate].
  simpl. destruct (truthy_string s) eqn:E; [| discriminate].
  intros _. exists s. split; [reflexivity | now apply truthy_string_true].
Qed.

Lemma validateSync_allPresent (body : gmap string string) :
  validateSync schema (destructure body) = [] -> allPresent body.
Proof.
  rewrite (validateSync_nil isEmail captureStackTrace). unfold reservationSchema.
  rewrite !Forall_cons. simpl.
  intros (H1 & H2 & H3 & H4 & H5 & H6 & _).
  unfold allPresent, fieldNames.
  repeat (apply Forall_cons; split); try apply Forall_nil; try exact I.
  - eapply checkPath_None_present; [| exact H1]; reflexivity.
  - eapply checkPath_None_present; [| exact H2]; reflexivity.
  - eapply checkPath_None_present; [| exact H3]; reflexivity.
  - eapply checkPath_None_present; [| exact H4]; reflexivity.
  - eapply checkPath_None_present; [| exact H6]; reflexivity.
  - eapply checkPath_None_present; [| exact H5]; reflexivity.
Qed.

Lemma incomplete_false_allPresent (body : gmap string string) :
  incomplete (destructure body) = false -> allPresent body.
Proof.
  unfold incomplete, destructure. simpl. rewrite !orb_false_iff.
  intros (((((H1 & H2) & H3) & H4) & H5) & H6).
  apply not_present in H1, H2, H3, H4, H5, H6.
  unfold allPresent, fieldNames.
  repeat (apply Forall_cons; split); try apply Forall_nil; try exact I; assumption.
Qed.

Lemma schema_wellFormed (body : gmap string string) :
  validateSync schema (destructure body) = [] <-> wellFormed isEmail body.
Proof.
  split.
  - intros H.
    now apply (validateSync_wellFormed isEmail captureStackTrace body
                 (validateSync_allPresent body H)).
  - intros H. pose proof H as (Hall & _).
    now apply (validateSync_wellFormed isEmail captureStackTrace body Hall).
Qed.

Lemma wellFormed_dec (body : gmap string string) :
  wellFormed isEmail body \/ ~ wellFormed isEmail body.
Proof.
  rewrite <- schema_wellFormed.
  destruct (validateSync schema (destructure body)); [now left | now right].
Qed.

Lemma allPresent_dec (body : gmap string string) :
  allPresent body \/ ~ allPresent body.
Proof.
  destruct (incomplete (destructure body)) eqn:Hi.
  - right. intros Hall. rewrite (incomplete_present body Hall) in Hi. discriminate Hi.
  - left. now apply incomplete_false_allPresent.
Qed.

(** The four ways a request ends. *)
Lemma submit_cases (body : gmap string string) (fault : option DriverError) (db : Collection) :
  (wellFormed isEmail body /\ fault = None
   /\ submit body fault db
      = ({| status := 200; body := successBody |}, (db ++ [destructure body])%list))
  \/ (wellFormed isEmail body /\ fault <> None
      /\ exists m, m <> ""
         /\ submit body fault db = ({| status := 500; body := failureBody m |}, db))
  \/ (allPresent body /\ ~ wellFormed isEmail body
      /\ exists m, m <> ""
         /\ submit body fault db = ({| status := 500; body := failureBody m |}, db))
  \/ (~ allPresent body
      /\ submit body fault db
         = ({| status := 400; body := failureBody "Please fill full reservation form!" |}, db)).
Proof.
  destruct (wellFormed_dec body) as [Hwf | Hbad].
  - destruct fault as [d |].
    + right; left. split; [exact Hwf |]. split; [discriminate |].
      rewrite submit_unwritten by exact Hwf.
      destruct (errorMiddleware_eta (ofDriver d)) as (m & Hm & E).
      exists m. split; [exact Hm |]. rewrite E.
      now rewrite (errorMiddleware_status_default (ofDriver d)) by now left.
    + left. split; [exact Hwf |]. split; [reflexivity |]. now apply submit_accepted.
  - destruct (incomplete (destructure body)) eqn:Hi.
    + right; right; right. split.
      * intros Hall. rewrite (incomplete_present body Hall) in Hi. discriminate Hi.
      * now apply submit_incomplete.
    + right; right; left.
      apply incomplete_false_allPresent in Hi as Hall.
      split; [exact Hall |]. split; [exact Hbad |].
      now apply submit_invalid.
Qed.


(** One request either appends its document and is confirmed, or leaves the
    collection alone and is not. *)
Lemma submit_step (body : gmap string string) (fault : option DriverError) (db : Collection) :
  (status (fst (submit body fault db)) = 200
   /\ snd (submit body fault db) = (db ++ [destructure body])%list)
  \/ (status (fst (submit body fault db)) <> 200
      /\ snd (submit body fault db) = db).
Proof.
  destruct (submit_cases body fault db)
    as [(_ & _ & E) | [(_ & _ & m & _ & E) | [(_ & _ & m & _ & E) | (_ & E)]]];
    rewrite E; simpl; [left | right | right | right]; split;
    (reflexivity || discriminate).
Qed.

(** X5: a document is written exactly when the answer is the 200
    confirmation, and it is then the one document appended, holding the
    submitted fields; with any other answer the collection is what it was. *)
Theorem submitReservation_writes_iff_confirmed
    (body : gmap string string) (fault : option DriverError) (db : Collection) :
  (status (fst (submit body fault db)) = 200
   /\ snd (submit body fault db) = (db ++ [destructure body])%list)
  \/ (status (fst (submit body fault db)) <> 200
      /\ snd (submit body fault db) = db).
Proof. apply submit_step. Qed.

Lemma destructure_insert_other (body : gmap string string) (k v : string) :
  k ∉ fieldNames -> destructure (<[k := v]> body) = destructure body.
Proof.
  unfold fieldNames. rewrite !not_elem_of_cons. intros (N1 & N2 & N3 & N4 & N5 & N6 & _).
  unfold destructure. f_equal; now apply lookup_insert_ne.
Qed.

(** X6: a property of the body other than the six is never looked at: with
    it added or changed, the answer and the collection are the same, and
    it is no part of the document written. *)
Theorem submitReservation_ignores_other_keys
    (body : gmap string string) (k v : string)
    (fault : option DriverError) (db : Collection) :
  k ∉ fieldNames ->
  submit (<[k := v]> body) fault db = submit body fault db.
Proof.
  intros Hk. unfold submitReservation, sendReservation.
  now rewrite (destructure_insert_other body k v Hk).
Qed.

(** X7: the schema looks at the phone only for its length, and at the date
    and the time only for being there: a well-formed submission stays
    accepted when its phone is replaced by any string of 10 characters and
    its date and time by any strings that are not empty. *)
Theorem submitReservation_unchecked_content
    (body : gmap string string) (p d t : string) (db : Collection) :
  wellFormed isEmail body ->
  String.length p = 10%nat -> d <> "" -> t <> "" ->
  status (fst (submit (<["phone" := p]> (<["date" := d]> (<["time" := t]> body))) None db))
  = 200.
Proof.
  intros (Hall & Hf & Hl & He & _) Hp Hd Ht.
  unfold allPresent, fieldNames in Hall. rewrite !Forall_cons in Hall.
  destruct Hall as (P1 & P2 & P3 & _).
  assert (Hpn : p <> "") by (intros ->; discriminate Hp).
  rewrite submit_accepted; [reflexivity |].
  unfold wellFormed, allPresent, fieldNames.
  rewrite !Forall_cons, Forall_nil.
  repeat split; simplify_map_eq; try assumption;
    try (eexists; split; [reflexivity | assumption]).
  exists p. split; [reflexivity | lia].
Qed.

(** X8: the state of the storage has no bearing on a submission that is not
    well-formed: it is refused before any write is attempted. *)
Theorem submitReservation_refused_before_write
    (body : gmap string string) (fault : option DriverError) (db : Collection) :
  ~ wellFormed isEmail body ->
  submit body fault db = submit body None db.
Proof.
  intros Hbad. rewrite <- schema_wellFormed in Hbad.
  unfold submitReservation, sendReservation, create.
  destruct (incomplete (destructure body)); [reflexivity |].
  destruct (validateSync schema (destructure body)); [contradiction | reflexivity].
Qed.

(** X9: over any sequence of requests, every request gets one response, and
    the collection ends as it began followed by the documents of the
    requests answered with 200, in the order of those requests: nothing
    else is added, nothing is removed or reordered, and repeats are kept. *)
Theorem serve_appends_confirmed (reqs : list Request) (db : Collection) :
  length (fst (serve reqs db)) = length reqs
  /\ snd (serve reqs db)
     = (db ++ map (fun r => destructure (reqBody r))
                  (confirmed reqs (fst (serve reqs db))))%list.
Proof.
  revert db. induction reqs as [| r reqs IH]; intros db.
  - simpl. now rewrite app_nil_r.
  - simpl.
    pose proof (submit_step (reqBody r) (reqFault r) db) as Hstep.
    destruct (submit (reqBody r) (reqFault r) db) as [res db1]. simpl in Hstep.
    destruct (IH db1) as (Hlen & Hdb).
    destruct (serve reqs db1) as [ress db2]. simpl in *.
    split; [now rewrite Hlen |].
    rewrite Hdb.
    destruct Hstep as [(H200 & ->) | (Hne & ->)].
    + rewrite H200. simpl. now rewrite <- app_assoc.
    + apply Z.eqb_neq in Hne. now rewrite Hne.
Qed.

(** X10: a collection whose documents all pass the schema still holds only
    such documents after any sequence of requests; starting empty, the
    service never stores a document the schema would refuse. *)
Theorem serve_keeps_collection_valid (reqs : list Request) (db : Collection) :
  Forall (fun doc => validateSync schema doc = []) db ->
  Forall (fun doc => validateSync schema doc = []) (snd (serve reqs db)).
Proof.
  revert db. induction reqs as [| r reqs IH]; intros db Hdb; [exact Hdb |].
  simpl.
  pose proof (submit_cases (reqBody r) (reqFault r) db) as Hstep.
  destruct (submit (reqBody r) (reqFault r) db) as [res db1].
  specialize (IH db1).
  destruct (serve reqs db1) as [ress db2]. simpl in *.
  apply IH.
  destruct Hstep
    as [(Hwf & _ & [= _ ->]) | [(_ & _ & m & _ & [= _ ->])
        | [(_ & _ & m & _ & [= _ ->]) | (_ & [= _ ->])]]];
    try exact Hdb.
  apply Forall_app. split; [exact Hdb |].
  apply Forall_cons. split; [now apply schema_wellFormed | apply Forall_nil; exact I].
Qed.

End IntakeWhole.

(** ** The schema on its own *)

Section SchemaAlone.
Import Js Error Reservation.

(** X3: the schema on its own accepts a document exactly when all six
    fields are there, both names have 3 to 30 characters, [isEmail] accepts
    the email and the phone has exactly 10 characters; date and time need
    only be there. *)
Theorem reservationSchema_accepts (isEmail : string -> bool) (body : gmap string string) :
  validateSync (reservationSchema isEmail) (destructure body) = []
  <-> (Forall (fun k => present (body !! k)) fieldNames
       /\ lengthIn 3 30 (body !! "firstName")
       /\ lengthIn 3 30 (body !! "lastName")
       /\ validEmail isEmail (body !! "email")
       /\ lengthIn 10 10 (body !! "phone")).
Proof. exact (schema_wellFormed isEmail (fun s => s) body). Qed.

Lemma reservationSchema_accepts_witness :
  validateSync (reservationSchema Sample.isEmail) (destructure Sample.john) = []
  /\ validateSync (reservationSchema Sample.isEmail) (destructure Sample.noDate) <> [].
Proof.
  split.
  - apply (reservationSchema_accepts Sample.isEmail Sample.john). exact john_wellFormed.
  - intros H. apply (reservationSchema_accepts Sample.isEmail Sample.noDate) in H.
    destruct H as (Hall & _). unfold fieldNames in Hall.
    rewrite !Forall_cons in Hall. destruct Hall as (_ & _ & _ & _ & (s & Hs & _) & _).
    vm_compute in Hs. discriminate Hs.
Defined.

End SchemaAlone.

(** ** The service on further concrete requests *)

Section IntakeWholeRuns.
Import Js Error Reservation Server.

Local Abbreviation submit :=
  (submitReservation Sample.isEmail Sample.validationMessage Sample.captureStackTrace).
Local Abbreviation serve :=
  (Server.serve Sample.isEmail Sample.validationMessage Sample.captureStackTrace).

Lemma shortPhone_not_wellFormed : ~ wellFormed Sample.isEmail Sample.shortPhone.
Proof.
  intros (_ & H1 & H2 & H3 & H4).
  destruct shortPhone_violatesSchema as [V | [V | [V | V]]]; contradiction.
Qed.



Lemma submitReservation_ignores_other_keys_witness :
  ("role" ∉ fieldNames)
  /\ submit (<["role" := "admin"]> Sample.john) None []
     = submit Sample.john None [].
Proof.
  assert (H : "role" ∉ fieldNames).
  { unfold fieldNames. rewrite !not_elem_of_cons.
    repeat split; try discriminate. apply not_elem_of_nil. }
  split; [exact H |].
  exact (submitReservation_ignores_other_keys
           Sample.isEmail Sample.validationMessage Sample.captureStackTrace
           Sample.john "role" "admin" None [] H).
Defined.

Lemma submitReservation_unchecked_content_witness :
  status (fst (submit (<["phone" := "not-digits"]>
                        (<["date" := "someday"]> (<["time" := "late"]> Sample.john)))
                      None []))
  = 200.
Proof.
  apply (submitReservation_unchecked_content
           Sample.isEmail Sample.validationMessage Sample.captureStackTrace
           Sample.john "not-digits" "someday" "late" [] john_wellFormed).
  - reflexivity.
  - discriminate.
  - discriminate.
Defined.

Lemma submitReservation_refused_before_write_witness :
  submit Sample.shortPhone (Some Sample.refused) []
  = submit Sample.shortPhone None [].
Proof.
  exact (submitReservation_refused_before_write
           Sample.isEmail Sample.validationMessage Sample.captureStackTrace
           Sample.shortPhone (Some Sample.refused) [] shortPhone_not_wellFormed).
Defined.

Lemma serve_keeps_collection_valid_witness :
  Forall (fun doc => validateSync (reservationSchema Sample.isEmail) doc = [])
    (snd (serve [ {| reqBody := Sample.john; reqFault := None |};
                  {| reqBody := Sample.shortPhone; reqFault := None |};
                  {| reqBody := Sample.john; reqFault := Some Sample.timedOut |};
                  {| reqBody := Sample.noDate; reqFault := None |} ]
                [])).
Proof.
  apply (serve_keeps_collection_valid
           Sample.isEmail Sample.validationMessage Sample.captureStackTrace).
  apply Forall_nil. exact I.
Defined.

End IntakeWholeRuns.

(** ** The form against the service *)

Section FormToService.
Import Js.

Variable isEmail : string -> bool.
Variable validationMessage : list Reservation.ValidatorError -> string.
Variable captureStackTrace : string -> string.
Variable requestFailed : Z -> string.

Local Abbreviation submitForm :=
  (Browser.submitForm isEmail validationMessage captureStackTrace requestFailed).
Local Abbreviation submit :=
  (Reservation.submitReservation isEmail validationMessage captureStackTrace).

(** What the handler does with a failure response of the service. *)
Lemma handleReservation_failure (c : Z) (m : string) (page : Client.Page) :
  Browser.validateStatus c = false -> m <> "" ->
  Client.handleReservation
    (Browser.settle requestFailed
       {| Error.status := c; Error.body := Reservation.failureBody m |})
    page
  = {| Client.form := Client.form page;
       Client.toasts := (Client.toasts page ++ [Client.ToastError (Some (JStr m))])%list;
       Client.location := Client.location page |}.
Proof.
  intros Hc Hm. apply truthy_string_true in Hm.
  unfold Browser.settle. simpl. rewrite Hc. simpl.
  unfold Client.errorText, Client.serverMessage. simpl. now rewrite Hm.
Qed.

(** An empty cell makes the guard of the controller fire. *)
Lemma incomplete_empty_cell (f : Client.Form) :
  "" ∈ Browser.cells f ->
  Reservation.incomplete (Reservation.destructure (Client.payload f)) = true.
Proof.
  unfold Browser.cells. rewrite !elem_of_cons, elem_of_nil. rewrite destructure_payload.
  unfold Reservation.incomplete. simpl.
  intros [H | [H | [H | [H | [H | [H | []]]]]]]; rewrite <- H; simpl;
    repeat (rewrite orb_true_r || rewrite orb_true_l); reflexivity.
Qed.

(** X11: the payload of the form has exactly the six keys the controller
    destructures, each holding the value of its cell: a field of the form
    can reach the service empty but never absent, and nothing else is
    sent. *)
Theorem payload_carries_six_fields (f : Client.Form) :
  Reservation.destructure (Client.payload f)
  = {| Reservation.firstName := Some (Client.firstName f);
       Reservation.lastName := Some (Client.lastName f);
       Reservation.email := Some (Client.email f);
       Reservation.phone := Some (Client.phone f);
       Reservation.date := Some (Client.date f);
       Reservation.time := Some (Client.time f) |}
  /\ (forall k, k ∉ Reservation.fieldNames -> Client.payload f !! k = None).
Proof.
  split; [apply destructure_payload |].
  intros k. unfold Reservation.fieldNames. rewrite !not_elem_of_cons.
  intros (N1 & N2 & N3 & N4 & N5 & N6 & _).
  unfold Client.payload. now simplify_map_eq.
Qed.

(** X12: one submission of the form to the service it reaches ends in one
    of two ways and never in between. Either one document with the values
    of the cells is stored, the form is emptied, the success notification
    shows the confirmation and the view moves to the confirmation route; or
    nothing is stored, the cells and the route stay as they were, and the
    error notification shows the message the service sent, which is never
    empty, so the fallback to the message of the request error is not
    used. *)
Theorem submitForm_all_or_nothing
    (fault : option Reservation.DriverError) (page : Client.Page)
    (db : Reservation.Collection) :
  (snd (submitForm fault page db)
   = (db ++ [Reservation.destructure (Client.payload (Client.form page))])%list
   /\ fst (submitForm fault page db)
      = {| Client.form := Client.emptyForm;
           Client.toasts :=
             (Client.toasts page
              ++ [Client.ToastSuccess (Some (JStr "Reservation Sent Successfully!"))])%list;
           Client.location := "/success" |})
  \/ (snd (submitForm fault page db) = db
      /\ exists m,
           m <> ""
           /\ Error.body (fst (submit (Client.payload (Client.form page)) fault db))
              = Reservation.failureBody m
           /\ fst (submitForm fault page db)
              = {| Client.form := Client.form page;
                   Client.toasts :=
                     (Client.toasts page ++ [Client.ToastError (Some (JStr m))])%list;
                   Client.location := Client.location page |}).
Proof.
  unfold Browser.submitForm.
  destruct (submit_cases isEmail validationMessage captureStackTrace
              (Client.payload (Client.form page)) fault db)
    as [(_ & _ & E) | [(_ & _ & m & Hm & E) | [(_ & _ & m & Hm & E) | (_ & E)]]];
    rewrite E; cbv beta iota; cbn [fst snd].
  - left. split; reflexivity.
  - right. split; [reflexivity |]. exists m. split; [exact Hm |]. split; [reflexivity |].
    now apply handleReservation_failure.
  - right. split; [reflexivity |]. exists m. split; [exact Hm |]. split; [reflexivity |].
    now apply handleReservation_failure.
  - right. split; [reflexivity |]. exists "Please fill full reservation form!".
    split; [discriminate |]. split; [reflexivity |].
    now apply handleReservation_failure.
Qed.

(** X13: submitting the form with any of its six cells empty stores
    nothing, shows the error notification "Please fill full reservation
    form!" and leaves every cell and the route as they were, whatever the
    other cells hold and whatever the state of the storage. *)
Theorem submitForm_empty_cell
    (fault : option Reservation.DriverError) (page : Client.Page)
    (db : Reservation.Collection) :
  "" ∈ Browser.cells (Client.form page) ->
  submitForm fault page db
  = ({| Client.form := Client.form page;
        Client.toasts :=
          (Client.toasts page
           ++ [Client.ToastError (Some (JStr "Please fill full reservation form!"))])%list;
        Client.location := Client.location page |},
     db).
Proof.
  intros H. apply incomplete_empty_cell in H.
  unfold Browser.submitForm.
  rewrite (submit_incomplete isEmail validationMessage captureStackTrace _ fault db H).
  reflexivity.
Qed.

End FormToService.

Section FormToServiceRuns.
Import Js.

Lemma submitForm_empty_cell_witness :
  Browser.submitForm Sample.isEmail Sample.validationMessage Sample.captureStackTrace
    Example.requestFailed None Example.fresh []
  = ({| Client.form := Example.noTime;
        Client.toasts :=
          [Client.ToastError (Some (JStr "Please fill full reservation form!"))];
        Client.location := "/" |},
     []).
Proof.
  apply (submitForm_empty_cell
           Sample.isEmail Sample.validationMessage Sample.captureStackTrace
           Example.requestFailed None Example.fresh []).
  unfold Browser.cells. simpl. rewrite !elem_of_cons. tauto.
Defined.

Lemma payload_carries_six_fields_witness :
  Client.payload Example.noTime !! "time" = Some ""
  /\ Client.payload Example.noTime !! "role" = None.
Proof.
  destruct (payload_carries_six_fields Example.noTime) as (H & Hother).
  split.
  - apply (f_equal Reservation.time) in H. exact H.
  - apply Hother. unfold Reservation.fieldNames. rewrite !not_elem_of_cons.
    repeat split; try discriminate. apply not_elem_of_nil.
Defined.

End FormToServiceRuns.

(** ** The confirmation view on every sequence of events *)

Section ConfirmationViewWhole.
Import Success.

Lemma within_bounds_step (v : View) (e : Event) :
  0 <= countdown v <= 10
  /\ (interval v = true \/ location v = "/success" -> 1 <= countdown v) ->
  0 <= countdown (step v e) <= 10
  /\ (interval (step v e) = true \/ location (step v e) = "/success" ->
      1 <= countdown (step v e)).
Proof.
  intros Hv. pose proof Hv as (Hb & Hpos). destruct e; simpl.
  - unfold tick. destruct (interval v) eqn:I; [| rewrite I; exact Hv].
    specialize (Hpos (or_introl eq_refl)).
    unfold updater. destruct (Z.eqb_spec (countdown v) 1) as [E | N].
    + unfold navigate, unmount, clearInterval, setCountdown. simpl.
      destruct (mounted v); simpl; (split; [lia |]);
        intros [H | H]; discriminate H.
    + unfold setCountdown. simpl. split; [lia | intros _; lia].
  - unfold goHome. destruct (mounted v) eqn:M; [| exact Hv].
    unfold navigate, unmount. simpl. rewrite M. simpl.
    split; [exact Hb | intros [H | H]; discriminate H].
  - unfold unmount. destruct (mounted v) eqn:M; [| exact Hv].
    simpl. split; [exact Hb |].
    intros [H | H]; [discriminate H | apply Hpos; now right].
Qed.

Lemma within_bounds_run (es : list Event) (v : View) :
  0 <= countdown v <= 10
  /\ (interval v = true \/ location v = "/success" -> 1 <= countdown v) ->
  0 <= countdown (run es v) <= 10
  /\ (interval (run es v) = true \/ location (run es v) = "/success" ->
      1 <= countdown (run es v)).
Proof.
  revert v. induction es as [| e es IH]; intros v Hv; [exact Hv |].
  simpl. apply IH. now apply within_bounds_step.
Qed.

(** X14: whatever happens to the view after it is mounted, and in whatever
    order, the count it shows stays between 0 and 10, and it is at least 1
    for as long as the route is the confirmation route: the view never
    shows 0, or a negative count, while it is the page on screen. *)
Theorem countdown_within_bounds (es : list Event) :
  0 <= countdown (run es mount) <= 10
  /\ (location (run es mount) = "/success" -> 1 <= countdown (run es mount)).
Proof.
  destruct (within_bounds_run es mount) as (Hb & Hpos).
  - simpl. split; [lia | intros _; lia].
  - split; [exact Hb | intros H; apply Hpos; now right].
Qed.

Lemma countdown_within_bounds_witness :
  let v := run [Tick; Tick; Unmount; Tick; GoHome] mount in
  location v = "/success" /\ 1 <= countdown v.
Proof.
  intros v.
  destruct (countdown_within_bounds [Tick; Tick; Unmount; Tick; GoHome]) as (_ & H).
  split; [reflexivity | apply H; reflexivity].
Defined.

Lemma route_step (v : View) (e : Event) :
  (location v = "/success" /\ navigations v = [])
  \/ (location v = "/" /\ navigations v = ["/"] /\ tornDown v) ->
  (location (step v e) = "/success" /\ navigations (step v e) = [])
  \/ (location (step v e) = "/" /\ navigations (step v e) = ["/"]
      /\ tornDown (step v e)).
Proof.
  intros [(L & N) | (L & N & T)].
  - destruct e; simpl.
    + unfold tick. destruct (interval v); [| now left].
      unfold updater. destruct (countdown v =? 1).
      * right. unfold navigate, unmount, clearInterval, setCountdown, tornDown. simpl.
        rewrite N. destruct (mounted v); simpl; now repeat split.
      * left. unfold setCountdown. simpl. now split.
    + unfold goHome. destruct (mounted v) eqn:M; [| now left].
      right. unfold navigate, unmount, tornDown. simpl. rewrite M, N. simpl.
      now repeat split.
    + left. unfold unmount. destruct (mounted v); simpl; now split.
  - right. rewrite (tornDown_step v e T). split; [exact L | split; [exact N | exact T]].
Qed.

(** X15: on every sequence of events the route is either still the
    confirmation route, with no navigation made, or the home view, with
    the one navigation to it made and the view torn down with its interval
    cleared; the view never navigates anywhere else. *)
Theorem route_follows_navigation (es : list Event) :
  (location (run es mount) = "/success" /\ navigations (run es mount) = [])
  \/ (location (run es mount) = "/" /\ navigations (run es mount) = ["/"]
      /\ mounted (run es mount) = false /\ interval (run es mount) = false).
Proof.
  assert (H : forall v,
             (location v = "/success" /\ navigations v = [])
             \/ (location v = "/" /\ navigations v = ["/"] /\ tornDown v) ->
             (location (run es v) = "/success" /\ navigations (run es v) = [])
             \/ (location (run es v) = "/" /\ navigations (run es v) = ["/"]
                 /\ tornDown (run es v))).
  { induction es as [| e es IH]; intros v Hv; [exact Hv |].
    simpl. apply IH. now apply route_step. }
  destruct (H mount) as [Hs | (L & N & M & I)]; [left; now split | now left |].
  right. now repeat split.
Qed.

End ConfirmationViewWhole.

(** ** The qualities section *)

Section QualitiesCards.
Import Qualities.

Lemma keyOf_card (qs : list Quality) :
  map keyOf (map card qs) = map (fun q => Some (id q)) qs.
Proof. induction qs as [| q qs IH]; [reflexivity | simpl; now rewrite IH]. Qed.

(** X16: with a first element of [data] that has its [ourQualities], the
    component renders one card for each quality and in their order: the
    card at a position carries the id of the quality at that position as
    its key, its image with the title as alternative text, its title and
    its description; the elements of [data] after the first are not
    read. *)
Theorem Qualities_renders_each_quality
    (entry : Entry) (rest : list Entry) (qualities : list Quality) :
  ourQualities entry = Some qualities ->
  exists root,
    Qualities (entry :: rest) = Some root
    /\ Qualities [entry] = Some root
    /\ length (cardsOf root) = length qualities
    /\ (forall i, cardsOf root !! i = card <$> qualities !! i).
Proof.
  intros H. unfold Qualities. rewrite H.
  eexists. split; [reflexivity |]. split; [reflexivity |].
  unfold cardsOf. simpl. split; [apply length_map |].
  intros i. apply list_lookup_fmap.
Qed.

Lemma Qualities_renders_each_quality_witness :
  exists root,
    Qualities [ {| ourQualities := Some [Example.service; Example.food] |};
                {| ourQualities := None |} ]
    = Some root
    /\ cardsOf root !! 1%nat = Some (card Example.food).
Proof.
  destruct (Qualities_renders_each_quality
              {| ourQualities := Some [Example.service; Example.food] |}
              [ {| ourQualities := None |} ]
              [Example.service; Example.food] eq_refl)
    as (root & H & _ & _ & Hi).
  exists root. split; [exact H | exact (Hi 1%nat)].
Defined.

(** X17: the keys of the cards are pairwise distinct exactly when the ids
    of the qualities are. *)
Theorem Qualities_keys_distinct
    (entry : Entry) (rest : list Entry) (qualities : list Quality) (root : Element) :
  ourQualities entry = Some qualities ->
  Qualities (entry :: rest) = Some root ->
  (NoDup (map keyOf (cardsOf root)) <-> NoDup (map id qualities)).
Proof.
  intros H. unfold Qualities. rewrite H. intros [= <-].
  unfold cardsOf. simpl. rewrite keyOf_card.
  replace (map (fun q => Some (id q)) qualities) with (Some <$> map id qualities).
  - apply (NoDup_fmap Some).
  - clear H. induction qualities as [| q qs IH]; [reflexivity | simpl; now rewrite <- IH].
Qed.

Lemma Qualities_keys_distinct_witness :
  NoDup (map keyOf (map card [Example.service; Example.food])).
Proof.
  apply (Qualities_keys_distinct
           {| ourQualities := Some [Example.service; Example.food] |} []
           [Example.service; Example.food]
           (Elem "section" None [("className", "qualities")]
              [Elem "div" None [("className", "container")]
                 (map card [Example.service; Example.food])])
           eq_refl eq_refl).
  simpl. repeat constructor; rewrite ?elem_of_cons, ?elem_of_nil; intros H'.
  - destruct H' as [H' | []]. discriminate H'.
  - destruct H'.
Defined.

(** X18: the component fails exactly when [data] is empty or its first
    element has no [ourQualities]; an [ourQualities] that is empty is no
    failure, it renders the container with no card in it. *)
Theorem Qualities_fails_iff (data : list Entry) :
  (Qualities data = None
   <-> data = [] \/ exists entry rest, data = entry :: rest /\ ourQualities entry = None)
  /\ (forall rest,
        Qualities ({| ourQualities := Some [] |} :: rest)
        = Some (Elem "section" None [("className", "qualities")]
                  [Elem "div" None [("className", "container")] []])).
Proof.
  split; [| reflexivity].
  unfold Qualities. destruct data as [| entry rest].
  - split; [now left | reflexivity].
  - destruct (ourQualities entry) as [qs |] eqn:E.
    + split; [discriminate |].
      intros [H | (e' & r' & [= -> ->] & H)]; [discriminate | congruence].
    + split; [| reflexivity]. intros _. right. now exists entry, rest.
Qed.

End QualitiesCards.
